(** * Verification of the quick-registration store, query view and session guard

    Shallow embedding of
    - [services/registrationService.ts] (the localStorage-backed registrant store),
    - the search and pagination logic of [components/AdminDashboard.tsx],
    - [login] and the startup effect of [contexts/AuthContext.tsx]. *)

From Stdlib Require Import ZArith Lia Ascii String DecimalString.
From stdpp Require Import base list strings.
Import ListNotations.
Open Scope string_scope.

(** ** Data model ([types/index.ts]) *)

Inductive Gender := male | female | other.

Record Registrant := mkRegistrant {
  id : string;
  fullName : string;
  email : string;
  phone : string;
  address : string;
  gender : Gender;
  dateOfBirth : string;
  photoPath : string;
  photoData : option string;   (** [photoData?: string]; [None] is [undefined] *)
  createdAt : string
}.

(** [RegistrantFormData = Omit<Registrant, 'id' | 'createdAt' | 'photoPath'> & { photo?: File }].
    The [photo] file is never read by the store, so it is not modelled. *)
Record RegistrantFormData := mkFormData {
  fd_fullName : string;
  fd_email : string;
  fd_phone : string;
  fd_address : string;
  fd_gender : Gender;
  fd_dateOfBirth : string;
  fd_photoData : option string
}.

(** ** Persisted state: the two localStorage keys.
    [None] means the key is absent.  The JSON text is modelled by the value it
    encodes: every field is a string or an enum tag, which [JSON.stringify] /
    [JSON.parse] round-trip, and an [undefined] [photoData] is dropped by
    [stringify] and read back as absent, i.e. [None] again. *)

Record Admin := mkAdmin { username : string; isAuthenticated : bool }.

Record Storage := mkStorage {
  st_registrants : option (list Registrant);   (** key ['registrants'] *)
  st_admin : option Admin                      (** key ['admin'] *)
}.

Definition set_registrants (st : Storage) (l : list Registrant) : Storage :=
  mkStorage (Some l) (st_admin st).

(** The inputs the store takes from its environment:
    [crypto.randomUUID()], [Date.now()] and [new Date().toISOString()]. *)
Record Env := mkEnv { env_uuid : string; env_now : Z; env_iso : string }.

(** JavaScript truthiness of an optional string: [undefined] and [''] are falsy. *)
Definition truthy (o : option string) : bool :=
  match o with
  | Some s => negb (String.eqb s "")
  | None => false
  end.

(** [a || b] on optional strings. *)
Definition js_or (a b : option string) : option string :=
  if truthy a then a else b.

(** Decimal rendering of a number inside a template literal. *)
Definition z_to_string (z : Z) : string :=
  NilZero.string_of_int (Z.to_int z).

(** [`photo_${Date.now()}.jpg`] *)
Definition photo_label (now : Z) : string :=
  "photo_" ++ z_to_string now ++ ".jpg".

(** ** The store ([registrationService.ts]) *)

Definition STORAGE_KEY := "registrants".

(** [initializeStorage]: writes [[]] when the key is absent. *)
Definition initializeStorage (st : Storage) : Storage :=
  match st_registrants st with
  | None => set_registrants st []
  | Some _ => st
  end.

(** [getAllRegistrants]: initialise, then parse the stored array. *)
Definition getAllRegistrants (st : Storage) : Storage * list Registrant :=
  let st' := initializeStorage st in
  (st', default [] (st_registrants st')).

(** [Array.prototype.find] with [registrant.id === id]. *)
Fixpoint find_by_id (i : string) (l : list Registrant) : option Registrant :=
  match l with
  | [] => None
  | r :: l' => if String.eqb (id r) i then Some r else find_by_id i l'
  end.

(** [Array.prototype.findIndex]; [None] plays the role of [-1]. *)
Fixpoint findIndex (i : string) (l : list Registrant) : option nat :=
  match l with
  | [] => None
  | r :: l' => if String.eqb (id r) i then Some 0 else option_map S (findIndex i l')
  end.

Definition getRegistrantById (st : Storage) (i : string) : Storage * option Registrant :=
  let '(st', regs) := getAllRegistrants st in
  (st', find_by_id i regs).

Definition newRegistrant (env : Env) (data : RegistrantFormData) : Registrant :=
  {| id := env_uuid env;
     fullName := fd_fullName data;
     email := fd_email data;
     phone := fd_phone data;
     address := fd_address data;
     gender := fd_gender data;
     dateOfBirth := fd_dateOfBirth data;
     photoData := fd_photoData data;
     photoPath := if truthy (fd_photoData data) then photo_label (env_now env) else "";
     createdAt := env_iso env |}.

(** [addRegistrant]: push the new record and write the whole array back. *)
Definition addRegistrant (env : Env) (st : Storage) (data : RegistrantFormData)
  : Storage * Registrant :=
  let '(st', regs) := getAllRegistrants st in
  let r := newRegistrant env data in
  (set_registrants st' (regs ++ [r]), r).

(** The object built by [{ ...registrants[index], fullName: ..., photoPath: ... }]. *)
Definition updatedRegistrant (env : Env) (old : Registrant) (data : RegistrantFormData)
  : Registrant :=
  {| id := id old;
     fullName := fd_fullName data;
     email := fd_email data;
     phone := fd_phone data;
     address := fd_address data;
     gender := fd_gender data;
     dateOfBirth := fd_dateOfBirth data;
     photoData := js_or (fd_photoData data) (photoData old);
     photoPath := if truthy (fd_photoData data) then photo_label (env_now env)
                  else photoPath old;
     createdAt := createdAt old |}.

(** [updateRegistrant]; [None] is the [null] result. *)
Definition updateRegistrant (env : Env) (st : Storage) (i : string) (data : RegistrantFormData)
  : Storage * option Registrant :=
  let '(st', regs) := getAllRegistrants st in
  match findIndex i regs with
  | None => (st', None)
  | Some index =>
      match regs !! index with
      | None => (st', None)   (* unreachable: findIndex returns an index in range *)
      | Some old =>
          let u := updatedRegistrant env old data in
          (set_registrants st' (<[index := u]> regs), Some u)
      end
  end.

(** [deleteRegistrant]. *)
Definition deleteRegistrant (st : Storage) (i : string) : Storage * bool :=
  let '(st', regs) := getAllRegistrants st in
  let filtered := List.filter (fun r => negb (String.eqb (id r) i)) regs in
  if Nat.eqb (length filtered) (length regs) then (st', false)
  else (set_registrants st' filtered, true).

(** The collection a storage state denotes (an absent key is the empty array). *)
Definition collection (st : Storage) : list Registrant := default [] (st_registrants st).

(** ** Query view ([AdminDashboard.tsx]) *)

(** *** JavaScript string values.
    A Stdlib [string] holds the UTF-8 encoding of the text (this file is UTF-8,
    so its literals are the encodings of the text they show).  JavaScript's string
    methods act on the UTF-16 code units of the text: [js_units] decodes the
    bytes to code points and encodes each code point in UTF-16. *)

Definition utf8_cont (c : Z) : bool := (128 <=? c)%Z && (c <? 192)%Z.

(** UTF-8 decoding to code points; a byte that does not start a well-formed
    sequence decodes to U+FFFD and decoding resumes at the next byte. *)
Fixpoint utf8_decode (bs : list Z) : list Z :=
  match bs with
  | [] => []
  | b :: rest =>
      if (b <? 128)%Z then b :: utf8_decode rest
      else match rest with
        | [] => [65533%Z]
        | c1 :: rest1 =>
            if (192 <=? b)%Z && (b <? 224)%Z && utf8_cont c1 then
              ((b - 192) * 64 + (c1 - 128))%Z :: utf8_decode rest1
            else match rest1 with
              | [] => 65533%Z :: utf8_decode rest
              | c2 :: rest2 =>
                  if (224 <=? b)%Z && (b <? 240)%Z && utf8_cont c1 && utf8_cont c2 then
                    ((b - 224) * 4096 + (c1 - 128) * 64 + (c2 - 128))%Z :: utf8_decode rest2
                  else match rest2 with
                    | [] => 65533%Z :: utf8_decode rest
                    | c3 :: rest3 =>
                        if (240 <=? b)%Z && (b <? 248)%Z && utf8_cont c1 && utf8_cont c2
                           && utf8_cont c3 then
                          ((b - 240) * 262144 + (c1 - 128) * 4096 + (c2 - 128) * 64
                           + (c3 - 128))%Z :: utf8_decode rest3
                        else 65533%Z :: utf8_decode rest
                    end
                end
          end
  end.

(** A code point as UTF-16 code units (a surrogate pair above U+FFFF). *)
Definition utf16_encode (cp : Z) : list Z :=
  if (cp <? 65536)%Z then [cp]
  else let c := (cp - 65536)%Z in
       [(55296 + Z.shiftr c 10)%Z; (56320 + Z.land c 1023)%Z].

Definition js_units (s : string) : list Z :=
  flat_map utf16_encode
    (utf8_decode (map (fun a => Z.of_nat (Ascii.nat_of_ascii a)) (list_ascii_of_string s))).

(** The code units [String.prototype.trim] removes: WhiteSpace (TAB, VT, FF,
    U+FEFF and the Zs category: U+0020, U+00A0, U+1680, U+2000-U+200A,
    U+202F, U+205F, U+3000) and LineTerminator (LF, CR, U+2028, U+2029). *)
Definition is_ws (u : Z) : bool :=
  (9 <=? u)%Z && (u <=? 13)%Z || (u =? 32)%Z || (u =? 160)%Z || (u =? 5760)%Z
  || (8192 <=? u)%Z && (u <=? 8202)%Z || (u =? 8232)%Z || (u =? 8233)%Z
  || (u =? 8239)%Z || (u =? 8287)%Z || (u =? 12288)%Z || (u =? 65279)%Z.

(** Drops the leading white space. *)
Fixpoint trimStart (u : list Z) : list Z :=
  match u with
  | [] => []
  | c :: u' => if is_ws c then trimStart u' else u
  end.

Definition trimEnd (u : list Z) : list Z := rev (trimStart (rev u)).

Definition trim (u : list Z) : list Z := trimEnd (trimStart u).

(** [String.prototype.includes] on code units. *)
Fixpoint startsWith_units (needle hay : list Z) : bool :=
  match needle, hay with
  | [], _ => true
  | a :: needle', b :: hay' => (a =? b)%Z && startsWith_units needle' hay'
  | _ :: _, [] => false
  end.

Fixpoint includes_units (hay needle : list Z) : bool :=
  startsWith_units needle hay
  || match hay with
     | [] => false
     | _ :: hay' => includes_units hay' needle
     end.

(** [hay.includes(needle)]: [needle] is a prefix of some suffix of [hay]. *)
Fixpoint includes (hay needle : string) : bool :=
  if String.prefix needle hay then true
  else match hay with
       | EmptyString => false
       | String _ hay' => includes hay' needle
       end.

(** The search effect: [filteredRegistrants] as a function of
    [searchTerm] and [registrants].  [toLowerCase] is the built-in
    [String.prototype.toLowerCase] on code units; the effect uses it as a
    black box, and the search theorems hold for every such function. *)
Definition filterRegistrants (toLowerCase : list Z -> list Z) (searchTerm : string)
    (registrants : list Registrant) : list Registrant :=
  let term := js_units searchTerm in
  match trim term with
  | [] => registrants
  | _ :: _ =>
      let lowercasedSearch := toLowerCase term in
      List.filter
        (fun registrant =>
           includes_units (toLowerCase (js_units (fullName registrant))) lowercasedSearch
           || includes_units (toLowerCase (js_units (email registrant))) lowercasedSearch
           || includes_units (js_units (phone registrant)) term)
        registrants
  end.

(** [toLowerCase] on the code units U+0000-U+00FF, where it maps A-Z and
    U+00C0-U+00DE except U+00D7 to the code unit 32 above and keeps the others;
    used to run the search on concrete text in that range. *)
Definition lower_latin1 (u : Z) : Z :=
  if (65 <=? u)%Z && (u <=? 90)%Z || (192 <=? u)%Z && (u <=? 222)%Z && negb (u =? 215)%Z
  then (u + 32)%Z else u.

Definition latin1_toLowerCase (u : list Z) : list Z := map lower_latin1 u.

(** [Array.prototype.slice(start, end)] with its treatment of negative and
    out-of-range indices. *)
Definition js_slice {A} (l : list A) (start stop : Z) : list A :=
  let n := Z.of_nat (length l) in
  let norm x := if Z.ltb x 0 then Z.max (n + x) 0 else Z.min x n in
  let s := norm start in
  let e := norm stop in
  firstn (Z.to_nat (e - s)%Z) (skipn (Z.to_nat s) l).

Definition itemsPerPage : Z := 5.

(** [Math.ceil(a / b)] for integers [a] and [b > 0]. *)
Definition math_ceil_div (a b : Z) : Z := (- ((- a) / b))%Z.

(** The pagination block, for page size [k] ([itemsPerPage] in the dashboard). *)
Definition totalPages {A} (k : Z) (filtered : list A) : Z :=
  math_ceil_div (Z.of_nat (length filtered)) k.

Definition currentItems {A} (k : Z) (currentPage : Z) (filtered : list A) : list A :=
  let indexOfLastItem := (currentPage * k)%Z in
  let indexOfFirstItem := (indexOfLastItem - k)%Z in
  js_slice filtered indexOfFirstItem indexOfLastItem.

(** ** Session guard ([AuthContext.tsx]) *)

(** React state of the provider: [admin] and [isAuthenticated]. *)
Record AuthState := mkAuthState { as_admin : option Admin; as_isAuthenticated : bool }.

Definition initialAuthState : AuthState := mkAuthState None false.

(** [login]: the new React state, the new storage and the boolean result. *)
Definition login (s : AuthState) (st : Storage) (user password : string)
  : AuthState * Storage * bool :=
  if String.eqb user "admin" && String.eqb password "admin123" then
    let adminUser := mkAdmin user true in
    (mkAuthState (Some adminUser) true, mkStorage (st_registrants st) (Some adminUser), true)
  else (s, st, false).

Definition logout (st : Storage) : AuthState * Storage :=
  (initialAuthState, mkStorage (st_registrants st) None).

(** Mounting the provider (a reload): initial state, then the effect that
    reads the ['admin'] key. *)
Definition mountAuth (st : Storage) : AuthState :=
  match st_admin st with
  | Some parsedAdmin => mkAuthState (Some parsedAdmin) (isAuthenticated parsedAdmin)
  | None => initialAuthState
  end.

(** ** Sequences of store calls *)

Inductive StoreOp :=
| OpGetAll
| OpGetById (i : string)
| OpCreate (env : Env) (data : RegistrantFormData)
| OpUpdate (env : Env) (i : string) (data : RegistrantFormData)
| OpDelete (i : string).

(** One call: new storage and, for [addRegistrant], the id of the returned record. *)
Definition step (st : Storage) (op : StoreOp) : Storage * option string :=
  match op with
  | OpGetAll => (fst (getAllRegistrants st), None)
  | OpGetById i => (fst (getRegistrantById st i), None)
  | OpCreate env data => let '(st', r) := addRegistrant env st data in (st', Some (id r))
  | OpUpdate env i data => (fst (updateRegistrant env st i data), None)
  | OpDelete i => (fst (deleteRegistrant st i), None)
  end.

(** Final storage and the ids of all records returned by [addRegistrant], in order. *)
Fixpoint run (st : Storage) (ops : list StoreOp) : Storage * list string :=
  match ops with
  | [] => (st, [])
  | op :: ops' =>
      let '(st1, o) := step st op in
      let '(st2, ids) := run st1 ops' in
      (st2, app (option_list o) ids)
  end.

(** The value [crypto.randomUUID()] returns during one call, if it is called. *)
Definition created_of (op : StoreOp) : list string :=
  match op with OpCreate env _ => [env_uuid env] | _ => [] end.

(** The values [crypto.randomUUID()] returns during the calls. *)
Definition generated_uuids (ops : list StoreOp) : list string := flat_map created_of ops.

(** ** Store lemmas *)

Section StoreFacts.

Lemma collection_init (st : Storage) : collection (initializeStorage st) = collection st.
Proof. destruct st as [[l|] a]; reflexivity. Qed.

Lemma getAll_eq (st : Storage) :
  getAllRegistrants st = (initializeStorage st, collection st).
Proof. destruct st as [[l|] a]; reflexivity. Qed.

Lemma collection_set (st : Storage) (l : list Registrant) : collection (set_registrants st l) = l.
Proof. reflexivity. Qed.

Lemma findIndex_Some (i : string) (l : list Registrant) (k : nat) :
  findIndex i l = Some k ->
  exists r, l !! k = Some r /\ id r = i /\
            (forall j r', (j < k)%nat -> l !! j = Some r' -> id r' <> i).
Proof.
  revert k. induction l as [|r l IH]; intros k H; simpl in H; [discriminate|].
  destruct (String.eqb_spec (id r) i) as [E|E].
  - injection H as <-. exists r. split; [done|]. split; [done|]. intros j r' Hj. lia.
  - destruct (findIndex i l) as [k'|] eqn:F; simpl in H; [|discriminate].
    injection H as <-. destruct (IH k' eq_refl) as (r0 & L & Id & Before).
    exists r0. split; [done|]. split; [done|].
    intros [|j] r' Hj Lj; simpl in Lj.
    + injection Lj as <-. done.
    + apply (Before j); [lia | done].
Qed.

Lemma find_by_id_findIndex (i : string) (l : list Registrant) (r : Registrant) :
  find_by_id i l = Some r -> exists k, findIndex i l = Some k /\ l !! k = Some r.
Proof.
  induction l as [|r0 l IH]; simpl; [discriminate|].
  destruct (String.eqb_spec (id r0) i).
  - intros [= <-]. exists 0%nat. done.
  - intros H. destruct (IH H) as (k & F & L). exists (S k). rewrite F. done.
Qed.

Lemma find_by_id_None (i : string) (l : list Registrant) :
  find_by_id i l = None <-> forall r, In r l -> id r <> i.
Proof.
  induction l as [|r0 l IH]; simpl; [split; [intros _ r []|done]|].
  destruct (String.eqb_spec (id r0) i) as [E|E].
  - split; [discriminate|]. intros H. exfalso. exact (H r0 (or_introl eq_refl) E).
  - rewrite IH. split.
    + intros H r [<-|Hr]; [done | apply H, Hr].
    + intros H r Hr. apply H. right. exact Hr.
Qed.

Lemma findIndex_None (i : string) (l : list Registrant) :
  find_by_id i l = None -> findIndex i l = None.
Proof.
  induction l as [|r0 l IH]; simpl; [done|].
  destruct (String.eqb (id r0) i); [discriminate|]. intros H. rewrite (IH H). done.
Qed.

Lemma update_found (env : Env) (st : Storage) (i : string) (data : RegistrantFormData)
      (k : nat) (old : Registrant) :
  findIndex i (collection st) = Some k -> collection st !! k = Some old ->
  updateRegistrant env st i data =
    (set_registrants (initializeStorage st)
       (<[k := updatedRegistrant env old data]> (collection st)),
     Some (updatedRegistrant env old data)).
Proof. intros F L. unfold updateRegistrant. rewrite getAll_eq, F, L. reflexivity. Qed.

Lemma update_missing (env : Env) (st : Storage) (i : string) (data : RegistrantFormData) :
  findIndex i (collection st) = None ->
  updateRegistrant env st i data = (initializeStorage st, None).
Proof. intros F. unfold updateRegistrant. rewrite getAll_eq, F. reflexivity. Qed.

Lemma filter_length_le {A} (f : A -> bool) (l : list A) : (length (List.filter f l) <= length l)%nat.
Proof. induction l as [|x l IH]; simpl; [lia|]. destruct (f x); simpl; lia. Qed.

Lemma filter_length_eq {A} (f : A -> bool) (l : list A) :
  length (List.filter f l) = length l -> List.filter f l = l.
Proof.
  induction l as [|x l IH]; simpl; [done|]. destruct (f x); simpl; intros H.
  - f_equal. apply IH. lia.
  - pose proof (filter_length_le f l). lia.
Qed.

Lemma filter_length_eq_all {A} (f : A -> bool) (l : list A) :
  length (List.filter f l) = length l -> forall x, In x l -> f x = true.
Proof.
  intros H x Hx. rewrite <- (filter_length_eq f l H) in Hx.
  apply List.filter_In in Hx. tauto.
Qed.

Lemma delete_eq (st : Storage) (i : string) :
  deleteRegistrant st i =
    let filtered := List.filter (fun r => negb (String.eqb (id r) i)) (collection st) in
    if Nat.eqb (length filtered) (length (collection st)) then (initializeStorage st, false)
    else (set_registrants (initializeStorage st) filtered, true).
Proof. unfold deleteRegistrant. rewrite getAll_eq. reflexivity. Qed.

Lemma exists_id_or_absent (l : list Registrant) (i : string) :
  (exists r, In r l /\ id r = i) \/ (forall r, In r l -> id r <> i).
Proof.
  induction l as [|r l [(r' & H1 & H2)|IH]].
  - right. intros r [].
  - left. exists r'. split; [right|]; done.
  - destruct (String.eqb_spec (id r) i) as [E|E].
    + left. exists r. split; [left|]; done.
    + right. intros r' [<-|H]; [done | apply IH, H].
Qed.

Lemma find_by_id_snoc (i : string) (l : list Registrant) (r : Registrant) :
  find_by_id i (l ++ [r]) =
    match find_by_id i l with
    | Some r' => Some r'
    | None => if String.eqb (id r) i then Some r else None
    end.
Proof.
  induction l as [|r0 l IH]; simpl; [destruct (String.eqb (id r) i); done|].
  destruct (String.eqb (id r0) i); done.
Qed.

Lemma add_eq (env : Env) (st : Storage) (data : RegistrantFormData) :
  addRegistrant env st data =
    (set_registrants (initializeStorage st) (collection st ++ [newRegistrant env data]),
     newRegistrant env data).
Proof. unfold addRegistrant. rewrite getAll_eq. reflexivity. Qed.

Lemma photo_label_nonempty (now : Z) : photo_label now <> "".
Proof. unfold photo_label. simpl. discriminate. Qed.

End StoreFacts.

(** ** Claims about the store *)

(** C1: updating an existing record without a photo (the form data's
    [photoData] is [undefined] or [''], i.e. falsy) returns a record, also
    written at the record's position, that keeps the old [photoData] and the
    old [photoPath] together, keeps [id] and [createdAt], and takes the six
    other fields from the form data. *)
Theorem update_without_photo_keeps_photo (env : Env) (st : Storage) (i : string)
    (data : RegistrantFormData) (old : Registrant) :
  find_by_id i (collection st) = Some old ->
  truthy (fd_photoData data) = false ->
  exists u k,
    updateRegistrant env st i data = (fst (updateRegistrant env st i data), Some u) /\
    collection st !! k = Some old /\
    collection (fst (updateRegistrant env st i data)) !! k = Some u /\
    (photoData u, photoPath u) = (photoData old, photoPath old) /\
    fullName u = fd_fullName data /\ email u = fd_email data /\
    phone u = fd_phone data /\ address u = fd_address data /\
    gender u = fd_gender data /\ dateOfBirth u = fd_dateOfBirth data /\
    id u = id old /\ createdAt u = createdAt old.
Proof.
  intros Hf Hp. destruct (find_by_id_findIndex _ _ _ Hf) as (k & F & L).
  exists (updatedRegistrant env old data), k.
  rewrite (update_found env st i data k old F L). simpl.
  split; [done|]. split; [done|]. split.
  - apply list_lookup_insert_eq. eapply lookup_lt_Some. exact L.
  - unfold updatedRegistrant, js_or. simpl. rewrite Hp. repeat split.
Qed.

Lemma update_without_photo_keeps_photo_witness :
  let old := mkRegistrant "u1" "Ann" "a@x" "1" "r" female "1990" "photo_7.jpg"
               (Some "data:P") "t0" in
  let st := mkStorage (Some [old]) None in
  let data := mkFormData "Bea" "b@x" "2" "s" other "1991" (Some "") in
  find_by_id "u1" (collection st) = Some old /\
  truthy (fd_photoData data) = false /\
  exists u k,
    updateRegistrant (mkEnv "u9" 99 "t9") st "u1" data
      = (fst (updateRegistrant (mkEnv "u9" 99 "t9") st "u1" data), Some u) /\
    collection st !! k = Some old /\
    collection (fst (updateRegistrant (mkEnv "u9" 99 "t9") st "u1" data)) !! k = Some u /\
    (photoData u, photoPath u) = (photoData old, photoPath old) /\
    fullName u = fd_fullName data /\ email u = fd_email data /\
    phone u = fd_phone data /\ address u = fd_address data /\
    gender u = fd_gender data /\ dateOfBirth u = fd_dateOfBirth data /\
    id u = id old /\ createdAt u = createdAt old.
Proof.
  intros old st data. split; [reflexivity|]. split; [reflexivity|].
  apply (update_without_photo_keeps_photo (mkEnv "u9" 99 "t9") st "u1" data old);
    reflexivity.
Defined.

(** C2: for an id that no record has, [updateRegistrant] returns [null] and the
    only storage effect is that of [getAllRegistrants] (the lazy creation of an
    absent key as [[]]): the collection is the same list as before. *)
Theorem update_unknown_id_not_found (env : Env) (st : Storage) (i : string)
    (data : RegistrantFormData) :
  (forall r, In r (collection st) -> id r <> i) ->
  updateRegistrant env st i data = (initializeStorage st, None) /\
  collection (initializeStorage st) = collection st /\
  (st_registrants st <> None -> initializeStorage st = st).
Proof.
  intros H. apply find_by_id_None, findIndex_None in H.
  split; [apply update_missing, H|]. split; [apply collection_init|].
  destruct st as [[l|] a]; simpl; [done|]. intros N. by destruct N.
Qed.

Lemma update_unknown_id_not_found_witness :
  let st := mkStorage (Some [mkRegistrant "u1" "Ann" "a@x" "1" "r" female "1990" ""
                                None "t0"]) None in
  let data := mkFormData "Bea" "b@x" "2" "s" other "1991" None in
  (forall r, In r (collection st) -> id r <> "zz") /\
  (updateRegistrant (mkEnv "u9" 9 "t9") st "zz" data = (initializeStorage st, None) /\
   collection (initializeStorage st) = collection st /\
   (st_registrants st <> None -> initializeStorage st = st)).
Proof.
  intros st data.
  assert (H : forall r, In r (collection st) -> id r <> "zz").
  { intros r [<-|[]]. simpl. discriminate. }
  split; [exact H|]. exact (update_unknown_id_not_found (mkEnv "u9" 9 "t9") st "zz" data H).
Defined.

Lemma delete_collection (st : Storage) (i : string) :
  collection (fst (deleteRegistrant st i))
    = List.filter (fun r => negb (String.eqb (id r) i)) (collection st).
Proof.
  rewrite delete_eq. simpl.
  destruct (Nat.eqb_spec (length (List.filter (fun r => negb (String.eqb (id r) i)) (collection st)))
                         (length (collection st))) as [E|E]; simpl.
  - rewrite collection_init. symmetry. apply filter_length_eq, E.
  - reflexivity.
Qed.

(** C3 (as amended): [deleteRegistrant] returns [true] exactly when some record
    has the id, and then the collection becomes the records with other ids.
    For an id no record has it returns [false], the collection is the same
    list, and storage is untouched except that an absent ['registrants'] key is
    first created as [[]] by [getAllRegistrants]; when the key exists nothing
    is written. *)
Theorem delete_reports_removal (st : Storage) (i : string) :
  (snd (deleteRegistrant st i) = true <-> exists r, In r (collection st) /\ id r = i) /\
  (snd (deleteRegistrant st i) = true ->
     collection (fst (deleteRegistrant st i))
       = List.filter (fun r => negb (String.eqb (id r) i)) (collection st)) /\
  ((forall r, In r (collection st) -> id r <> i) ->
     deleteRegistrant st i = (initializeStorage st, false) /\
     length (collection (initializeStorage st)) = length (collection st) /\
     collection (initializeStorage st) = collection st /\
     (st_registrants st <> None -> initializeStorage st = st)).
Proof.
  set (f := fun r => negb (String.eqb (id r) i)).
  assert (Hall : (forall r, In r (collection st) -> id r <> i) ->
                 length (List.filter f (collection st)) = length (collection st)).
  { intros H. f_equal. clear -H. induction (collection st) as [|r l IH]; simpl; [done|].
    unfold f at 1. destruct (String.eqb_spec (id r) i) as [E|E].
    - exfalso. exact (H r (or_introl eq_refl) E).
    - simpl. f_equal. apply IH. intros r' Hr'. apply H. right. exact Hr'. }
  assert (Hnone : (forall r, In r (collection st) -> id r <> i) ->
                  deleteRegistrant st i = (initializeStorage st, false)).
  { intros H. rewrite delete_eq. simpl. fold f. rewrite (Hall H), Nat.eqb_refl. done. }
  split; [|split].
  - split.
    + intros Hb. destruct (exists_id_or_absent (collection st) i) as [W|W]; [exact W|].
      rewrite (Hnone W) in Hb. discriminate.
    + intros (r & Hr & Hid). rewrite delete_eq. simpl. fold f.
      destruct (Nat.eqb_spec (length (List.filter f (collection st))) (length (collection st)))
        as [E|E]; [|done].
      exfalso. pose proof (filter_length_eq_all f _ E r Hr) as Hf.
      unfold f in Hf. rewrite Hid, String.eqb_refl in Hf. discriminate.
  - intros _. apply delete_collection.
  - intros H. split; [exact (Hnone H)|]. rewrite collection_init. split; [done|]. split; [done|].
    destruct st as [[l|] a]; simpl; [done|]. intros N. by destruct N.
Qed.

Lemma delete_reports_removal_witness :
  let st := mkStorage None None in
  (forall r, In r (collection st) -> id r <> "x") /\
  deleteRegistrant st "x" = (initializeStorage st, false).
Proof.
  intros st. assert (H : forall r, In r (collection st) -> id r <> "x") by (intros r []).
  split; [exact H|]. exact (proj1 (proj2 (proj2 (delete_reports_removal st "x")) H)).
Defined.

(** Counterexample to C3 as stated: on a store whose ['registrants'] key is
    absent, deleting an unknown id returns [false] but does write: the key is
    set to [[]]. *)
Lemma delete_unknown_writes_absent_key :
  deleteRegistrant (mkStorage None None) "x" = (mkStorage (Some []) None, false) /\
  fst (deleteRegistrant (mkStorage None None) "x") <> mkStorage None None.
Proof. split; [reflexivity | simpl; discriminate]. Qed.

(** C10: [deleteRegistrant] keeps exactly the records whose id differs, in
    their original order (so every record with the id is removed, not only the
    first), and [updateRegistrant] overwrites only the first record with the id:
    the length and every other position are unchanged. *)
Theorem delete_and_update_frame (env : Env) (st : Storage) (i : string)
    (data : RegistrantFormData) :
  (collection (fst (deleteRegistrant st i))
     = List.filter (fun r => negb (String.eqb (id r) i)) (collection st) /\
   (forall r, In r (collection (fst (deleteRegistrant st i))) -> id r <> i) /\
   (forall r, In r (collection st) -> id r <> i ->
              In r (collection (fst (deleteRegistrant st i))))) /\
  (forall k, findIndex i (collection st) = Some k ->
     (forall j r, (j < k)%nat -> collection st !! j = Some r -> id r <> i) /\
     length (collection (fst (updateRegistrant env st i data))) = length (collection st) /\
     (forall j, j <> k -> collection (fst (updateRegistrant env st i data)) !! j
                          = collection st !! j) /\
     collection (fst (updateRegistrant env st i data)) !! k
       = snd (updateRegistrant env st i data)).
Proof.
  split; [split; [|split]|].
  - apply delete_collection.
  - intros r. rewrite delete_collection. intros Hr. apply List.filter_In in Hr.
    destruct Hr as [_ Hr]. destruct (String.eqb_spec (id r) i); [discriminate | done].
  - intros r Hr Hid. rewrite delete_collection. apply List.filter_In. split; [done|].
    destruct (String.eqb_spec (id r) i); [done | reflexivity].
  - intros k F. destruct (findIndex_Some _ _ _ F) as (old & L & _ & Before).
    rewrite (update_found env st i data k old F L). simpl.
    split; [exact Before|]. split; [apply length_insert|]. split.
    + intros j Hj. apply list_lookup_insert_ne. lia.
    + apply list_lookup_insert_eq. eapply lookup_lt_Some. exact L.
Qed.

Lemma delete_and_update_frame_witness :
  let a := mkRegistrant "u1" "Ann" "a@x" "1" "r" female "1990" "" None "t0" in
  let b := mkRegistrant "u2" "Bob" "b@x" "2" "s" male "1980" "" None "t1" in
  let st := mkStorage (Some [a; b; a]) None in
  let data := mkFormData "Cy" "c@x" "3" "t" other "1970" None in
  findIndex "u1" (collection st) = Some 0%nat /\
  length (collection (fst (updateRegistrant (mkEnv "u9" 9 "t9") st "u1" data)))
    = length (collection st).
Proof.
  intros a b st data. split; [reflexivity|].
  exact (proj1 (proj2 (proj2 (delete_and_update_frame (mkEnv "u9" 9 "t9") st "u1" data)
                        0%nat eq_refl))).
Defined.

(** Counterexample to C4 as stated: [addRegistrant] does not check that the
    value of [crypto.randomUUID()] is new.  If it equals the id of a stored
    record, [getRegistrantById] of the returned id finds the older record. *)
Lemma create_then_get_collision :
  let old := mkRegistrant "u" "Ann" "a@x" "1" "r" female "1990" "" None "t0" in
  let st := mkStorage (Some [old]) None in
  let data := mkFormData "Bea" "b@x" "2" "s" other "1991" None in
  let '(st1, r) := addRegistrant (mkEnv "u" 5 "t5") st data in
  snd (getRegistrantById st1 (id r)) = Some old /\ old <> r.
Proof. simpl. split; [reflexivity | discriminate]. Qed.

(** C4 (as amended): when the generated id is not already in the collection,
    [getRegistrantById] of the returned id, right after [addRegistrant], gives
    back exactly the record [addRegistrant] returned: the same form fields,
    with [id] the generated UUID and [createdAt] the creation timestamp. *)
Theorem create_then_get_roundtrip (env : Env) (st : Storage) (data : RegistrantFormData) :
  (forall r, In r (collection st) -> id r <> env_uuid env) ->
  let '(st1, r) := addRegistrant env st data in
  snd (getRegistrantById st1 (id r)) = Some r /\
  id r = env_uuid env /\ createdAt r = env_iso env /\
  fullName r = fd_fullName data /\ email r = fd_email data /\
  phone r = fd_phone data /\ address r = fd_address data /\
  gender r = fd_gender data /\ dateOfBirth r = fd_dateOfBirth data /\
  photoData r = fd_photoData data.
Proof.
  intros Hfresh. apply find_by_id_None in Hfresh. rewrite add_eq.
  unfold getRegistrantById. rewrite getAll_eq. simpl.
  rewrite collection_set, find_by_id_snoc. simpl. rewrite Hfresh, String.eqb_refl.
  repeat split.
Qed.

Lemma create_then_get_roundtrip_witness :
  let old := mkRegistrant "u" "Ann" "a@x" "1" "r" female "1990" "" None "t0" in
  let st := mkStorage (Some [old]) None in
  let data := mkFormData "Bea" "b@x" "2" "s" other "1991" (Some "data:P") in
  (forall r, In r (collection st) -> id r <> "v") /\
  snd (getRegistrantById (fst (addRegistrant (mkEnv "v" 5 "t5") st data)) "v")
    = Some (snd (addRegistrant (mkEnv "v" 5 "t5") st data)).
Proof.
  intros old st data.
  assert (H : forall r, In r (collection st) -> id r <> "v")
    by (intros r [<-|[]]; simpl; discriminate).
  split; [exact H|].
  exact (proj1 (create_then_get_roundtrip (mkEnv "v" 5 "t5") st data H)).
Defined.

(** Counterexample to C5 as stated: an empty-string [photoData] is no photo
    (it is falsy, so [photoPath] is [''] ) but it is copied as it is, so the
    created record's [photoData] is [''], not absent. *)
Lemma create_empty_photo_not_absent :
  let data := mkFormData "Bea" "b@x" "2" "s" other "1991" (Some "") in
  let r := snd (addRegistrant (mkEnv "v" 5 "t5") (mkStorage None None) data) in
  truthy (fd_photoData data) = false /\ photoPath r = "" /\ photoData r = Some "" /\
  photoData r <> None.
Proof. simpl. split; [reflexivity|]. split; [reflexivity|]. split; [reflexivity|discriminate]. Qed.

(** C5 (as amended): [addRegistrant] copies [photoData] exactly as supplied.
    When it is falsy ([undefined] or ['']) [photoPath] is ['']; in particular
    with no [photoData] at all, [photoPath] is [''] and [photoData] is absent.
    When it is a non-empty string [photoPath] is the non-empty label
    [photo_<Date.now()>.jpg]. *)
Theorem create_photo_fields (env : Env) (st : Storage) (data : RegistrantFormData) :
  let r := snd (addRegistrant env st data) in
  photoData r = fd_photoData data /\
  (truthy (fd_photoData data) = false -> photoPath r = "") /\
  (fd_photoData data = None -> photoPath r = "" /\ photoData r = None) /\
  (truthy (fd_photoData data) = true ->
     photoPath r = photo_label (env_now env) /\ photoPath r <> "").
Proof.
  rewrite add_eq. simpl. split; [done|]. split; [|split].
  - intros H. rewrite H. done.
  - intros H. rewrite H. done.
  - intros H. rewrite H. split; [done | apply photo_label_nonempty].
Qed.

Lemma create_photo_fields_witness :
  let data := mkFormData "Bea" "b@x" "2" "s" other "1991" None in
  let r := snd (addRegistrant (mkEnv "v" 5 "t5") (mkStorage None None) data) in
  fd_photoData data = None /\ photoPath r = "" /\ photoData r = None.
Proof.
  intros data r. split; [reflexivity|].
  exact (proj1 (proj2 (proj2 (create_photo_fields (mkEnv "v" 5 "t5") (mkStorage None None) data)))
           eq_refl).
Defined.

(** ** Search *)

(** [needle] occurs in [hay] as a contiguous substring. *)
Definition is_substring (needle hay : string) : Prop :=
  exists pre post, hay = (pre ++ needle ++ post)%string.

(** [needle] occurs in [hay] as a contiguous run of code units. *)
Definition is_substring_units (needle hay : list Z) : Prop :=
  exists pre post, hay = app pre (app needle post).

(** Case-insensitive substring: a substring once both sides are lower-cased
    by [toLowerCase]. *)
Definition ci_substring (toLowerCase : list Z -> list Z) (needle hay : string) : Prop :=
  is_substring_units (toLowerCase (js_units needle)) (toLowerCase (js_units hay)).

(** Text made only of white space (the empty text included). *)
Definition all_ws (u : list Z) : bool := forallb is_ws u.

Section SearchFacts.

Lemma prefix_spec (t s : string) :
  String.prefix t s = true <-> exists post, s = (t ++ post)%string.
Proof.
  revert s. induction t as [|a t IH]; intros s; simpl.
  - split; [intros _; exists s; done | intros _; destruct s; reflexivity].
  - destruct s as [|b s].
    + split; [discriminate | intros [post P]; discriminate].
    + simpl. destruct (ascii_dec a b) as [<-|N].
      * rewrite IH. split; intros [post P]; exists post; [rewrite P | injection P]; done.
      * split; [discriminate | intros [post P]; injection P as E _; congruence].
Qed.

Lemma includes_eq (hay needle : string) :
  includes hay needle =
    if String.prefix needle hay then true
    else match hay with
         | EmptyString => false
         | String _ hay' => includes hay' needle
         end.
Proof. destruct hay; reflexivity. Qed.

Lemma includes_spec (hay needle : string) :
  includes hay needle = true <-> is_substring needle hay.
Proof.
  unfold is_substring. induction hay as [|c hay IH]; rewrite includes_eq.
  - destruct (String.prefix needle "") eqn:P.
    + split; [intros _|intros _; reflexivity]. apply prefix_spec in P as [post P].
      exists "", post. exact P.
    + split; [discriminate|]. intros (pre & post & E).
      destruct pre; [|discriminate]. simpl in E.
      assert (String.prefix needle "" = true) by (apply prefix_spec; exists post; done).
      congruence.
  - destruct (String.prefix needle (String c hay)) eqn:P.
    + split; [intros _|intros _; reflexivity]. apply prefix_spec in P as [post P].
      exists "", post. exact P.
    + rewrite IH. split.
      * intros (pre & post & E). exists (String c pre), post. rewrite E. done.
      * intros (pre & post & E). destruct pre as [|c' pre].
        -- simpl in E. exfalso.
           assert (String.prefix needle (String c hay) = true)
             by (apply prefix_spec; exists post; done).
           congruence.
        -- injection E as _ E. exists pre, post. done.
Qed.

Lemma startsWith_units_spec (needle hay : list Z) :
  startsWith_units needle hay = true <-> exists post, hay = app needle post.
Proof.
  revert hay. induction needle as [|a needle IH]; intros hay; simpl.
  - split; [intros _; exists hay; reflexivity | intros _; reflexivity].
  - destruct hay as [|b hay].
    + split; [discriminate | intros [post P]; discriminate].
    + rewrite andb_true_iff, Z.eqb_eq, IH. split.
      * intros [-> [post ->]]. exists post. reflexivity.
      * intros [post P]. injection P as -> P. split; [reflexivity|]. exists post. exact P.
Qed.

Lemma includes_units_spec (hay needle : list Z) :
  includes_units hay needle = true <-> is_substring_units needle hay.
Proof.
  unfold is_substring_units. induction hay as [|c hay IH]; simpl; rewrite orb_true_iff.
  - rewrite startsWith_units_spec. split.
    + intros [[post P]|]; [|discriminate]. exists [], post. exact P.
    + intros (pre & post & E). left. destruct pre; [|discriminate]. exists post. exact E.
  - rewrite startsWith_units_spec, IH. split.
    + intros [[post P]|(pre & post & E)].
      * exists [], post. exact P.
      * exists (c :: pre), post. rewrite E. reflexivity.
    + intros (pre & post & E). destruct pre as [|c' pre].
      * left. exists post. exact E.
      * right. injection E as _ E. exists pre, post. exact E.
Qed.

Lemma all_ws_trimStart (u : list Z) : all_ws (trimStart u) = all_ws u.
Proof.
  unfold all_ws. induction u as [|c u IH]; simpl; [reflexivity|].
  destruct (is_ws c) eqn:W; simpl; [exact IH | rewrite W; reflexivity].
Qed.

Lemma trimStart_nil (u : list Z) : trimStart u = [] <-> all_ws u = true.
Proof.
  unfold all_ws. induction u as [|c u IH]; simpl; [tauto|].
  destruct (is_ws c); simpl; [exact IH | split; discriminate].
Qed.

Lemma all_ws_rev (u : list Z) : all_ws (rev u) = all_ws u.
Proof.
  unfold all_ws. induction u as [|c u IH]; simpl; [reflexivity|].
  rewrite forallb_app, IH. simpl. rewrite andb_true_r, andb_comm. reflexivity.
Qed.

Lemma rev_nil_iff (u : list Z) : rev u = [] <-> u = [].
Proof.
  split; [|intros ->; reflexivity].
  intros H. rewrite <- (rev_involutive u), H. reflexivity.
Qed.

Lemma trim_nil (u : list Z) : trim u = [] <-> all_ws u = true.
Proof.
  unfold trim, trimEnd. rewrite rev_nil_iff, trimStart_nil, all_ws_rev, all_ws_trimStart.
  reflexivity.
Qed.

End SearchFacts.

(** C6: a blank term (empty or only white space) leaves the listing as it is;
    otherwise a record is kept exactly when its name or email contains the term
    ignoring case, or its phone contains the term as it is.  Stated for every
    lowering function, hence for the built-in [toLowerCase]. *)
Theorem search_filter_spec (toLowerCase : list Z -> list Z) (registrants : list Registrant)
    (searchTerm : string) :
  (all_ws (js_units searchTerm) = true ->
     filterRegistrants toLowerCase searchTerm registrants = registrants) /\
  (forall r, In r (filterRegistrants toLowerCase searchTerm registrants) <->
     In r registrants /\
     (all_ws (js_units searchTerm) = true \/
      ci_substring toLowerCase searchTerm (fullName r) \/
      ci_substring toLowerCase searchTerm (email r) \/
      is_substring_units (js_units searchTerm) (js_units (phone r)))).
Proof.
  unfold filterRegistrants. split.
  - intros H. apply trim_nil in H. rewrite H. reflexivity.
  - intros r. destruct (trim (js_units searchTerm)) as [|c u] eqn:E.
    + apply trim_nil in E. rewrite E. tauto.
    + assert (Hb : all_ws (js_units searchTerm) <> true)
        by (rewrite <- trim_nil, E; discriminate).
      rewrite List.filter_In, !orb_true_iff, !includes_units_spec.
      unfold ci_substring. split; [tauto|]. intros [Hr [W|M]]; [congruence|tauto].
Qed.

(** A term of one no-break space (UTF-8 C2 A0, the code unit U+00A0) is blank:
    the listing of two records is shown as it is. *)
Lemma search_filter_spec_witness :
  let mk n e := mkRegistrant n n e "0123" "addr" female "1990" "" None "t" in
  let nbsp := String (Ascii.ascii_of_nat 194) (String (Ascii.ascii_of_nat 160) EmptyString) in
  js_units nbsp = [160%Z] /\ all_ws (js_units nbsp) = true /\
  filterRegistrants latin1_toLowerCase nbsp [mk "Ann" "a@x"; mk "Bob" "b@x"]
    = [mk "Ann" "a@x"; mk "Bob" "b@x"].
Proof.
  intros mk nbsp. split; [reflexivity|]. split; [reflexivity|].
  exact (proj1 (search_filter_spec latin1_toLowerCase [mk "Ann" "a@x"; mk "Bob" "b@x"] nbsp)
           eq_refl).
Defined.

(** The dashboard scenario: searching ["alice"] over three registrants keeps
    the two Alice records, on one page of five. *)
Example search_alice_scenario :
  let mk n e := mkRegistrant n n e "0123" "addr" female "1990" "" None "t" in
  let regs := [mk "Alice Smith" "as@x"; mk "Bob Jones" "bj@x"; mk "Alice Brown" "ab@x"] in
  filterRegistrants latin1_toLowerCase "alice" regs
    = [mk "Alice Smith" "as@x"; mk "Alice Brown" "ab@x"] /\
  totalPages itemsPerPage (filterRegistrants latin1_toLowerCase "alice" regs) = 1%Z.
Proof. split; vm_compute; reflexivity. Qed.

(** Beyond ASCII: ["é"] finds ["ÉMILE Zola"] (U+00C9 lowers to U+00E9), and a
    term of one ideographic space (U+3000, UTF-8 E3 80 80) is blank. *)
Example search_non_ascii :
  let mk n e := mkRegistrant n n e "0123" "addr" male "1990" "" None "t" in
  let regs := [mk "ÉMILE Zola" "ez@x"; mk "Bob Jones" "bj@x"] in
  let ideo := String (Ascii.ascii_of_nat 227)
                (String (Ascii.ascii_of_nat 128) (String (Ascii.ascii_of_nat 128) EmptyString)) in
  js_units "ÉMILE" = [201; 77; 73; 76; 69]%Z /\
  filterRegistrants latin1_toLowerCase "é" regs = [mk "ÉMILE Zola" "ez@x"] /\
  js_units ideo = [12288%Z] /\
  filterRegistrants latin1_toLowerCase ideo regs = regs.
Proof. vm_compute. repeat split; reflexivity. Qed.

(** ** Pagination *)

Section PaginationFacts.

Lemma math_ceil_div_bounds (a b : Z) :
  (0 < b)%Z -> ((math_ceil_div a b - 1) * b < a <= math_ceil_div a b * b)%Z.
Proof.
  intros Hb. unfold math_ceil_div.
  pose proof (Z.div_mod (- a) b ltac:(lia)) as D.
  pose proof (Z.mod_pos_bound (- a) b Hb) as M. nia.
Qed.

Lemma js_slice_length {A} (l : list A) (s e : Z) :
  (0 <= s <= Z.of_nat (length l))%Z -> (0 <= e)%Z ->
  Z.of_nat (length (js_slice l s e)) = Z.max 0 (Z.min e (Z.of_nat (length l)) - s).
Proof.
  intros Hs He. unfold js_slice.
  destruct (Z.ltb_spec s 0) as [|_]; [lia|]. destruct (Z.ltb_spec e 0) as [|_]; [lia|].
  rewrite List.length_firstn, List.length_skipn. lia.
Qed.

End PaginationFacts.

(** C7: with a positive page size [k] and [N] filtered records, [totalPages]
    is [ceil(N / k)]: the unique [T >= 0] with [(T - 1) * k < N <= T * k].
    Every page [p] with [1 <= p <= T] has [k] items, except the last one,
    [p = T], which has [N - k * (T - 1)]. *)
Theorem pagination_page_sizes {A} (k : Z) (filtered : list A) (p : Z) :
  (0 < k)%Z ->
  let N := Z.of_nat (length filtered) in
  let T := totalPages k filtered in
  (0 <= T)%Z /\ ((T - 1) * k < N <= T * k)%Z /\
  ((1 <= p <= T)%Z ->
     Z.of_nat (length (currentItems k p filtered))
       = if Z.eqb p T then (N - k * (T - 1))%Z else k).
Proof.
  intros Hk N T.
  pose proof (math_ceil_div_bounds N k Hk) as B.
  assert (ET : T = math_ceil_div N k) by reflexivity. rewrite <- ET in B.
  assert (HN : (0 <= N)%Z) by lia.
  assert (HT : (0 <= T)%Z) by nia.
  split; [exact HT|]. split; [exact B|].
  intros Hp. unfold currentItems.
  rewrite js_slice_length; [|fold N; nia | nia]. fold N.
  destruct (Z.eqb_spec p T) as [->|Hne].
  - nia.
  - assert (p * k <= (T - 1) * k)%Z by nia. nia.
Qed.

Lemma pagination_page_sizes_witness :
  (0 < itemsPerPage)%Z /\
  (1 <= 2 <= totalPages itemsPerPage [1;2;3;4;5;6;7])%Z /\
  Z.of_nat (length (currentItems itemsPerPage 2 [1;2;3;4;5;6;7])) = 2%Z.
Proof.
  assert (Hk : (0 < itemsPerPage)%Z) by reflexivity.
  assert (Hp : (1 <= 2 <= totalPages itemsPerPage [1;2;3;4;5;6;7])%Z)
    by (vm_compute; split; discriminate).
  split; [exact Hk|]. split; [exact Hp|].
  exact (proj2 (proj2 (pagination_page_sizes itemsPerPage [1;2;3;4;5;6;7] 2 Hk)) Hp).
Defined.

(** ** Session guard *)

(** C8: [login] succeeds exactly for the pair [admin] / [admin123].  On
    success the React state is authenticated, the ['admin'] key holds the
    authenticated session, so a reload ([mountAuth]) is authenticated again,
    and the ['registrants'] key is not touched.  On any other pair it returns
    [false] and neither the React state nor the storage changes. *)
Theorem login_spec (s : AuthState) (st : Storage) (user password : string) :
  let '(s', st', ok) := login s st user password in
  (ok = true <-> user = "admin" /\ password = "admin123") /\
  (ok = true ->
     as_isAuthenticated s' = true /\
     st_admin st' = Some (mkAdmin user true) /\
     as_isAuthenticated (mountAuth st') = true /\
     st_registrants st' = st_registrants st) /\
  (ok = false -> s' = s /\ st' = st).
Proof.
  unfold login.
  destruct (String.eqb_spec user "admin") as [U|U];
    destruct (String.eqb_spec password "admin123") as [P|P]; simpl.
  - repeat split; try done.
  - split; [split; [discriminate | intros [_ H]; done]|]. split; [discriminate | done].
  - split; [split; [discriminate | intros [H _]; done]|]. split; [discriminate | done].
  - split; [split; [discriminate | intros [H _]; done]|]. split; [discriminate | done].
Qed.

Lemma login_spec_witness :
  let '(s', st', ok) := login initialAuthState (mkStorage None None) "admin" "admin123" in
  ok = true /\ as_isAuthenticated (mountAuth st') = true.
Proof.
  pose proof (login_spec initialAuthState (mkStorage None None) "admin" "admin123") as H.
  simpl in H |- *. destruct H as [[_ Hiff] [Hok _]].
  split; [reflexivity|]. exact (proj1 (proj2 (proj2 (Hok eq_refl)))).
Defined.

Example login_wrong_pair_stays_logged_out :
  let '(s', st', ok) := login initialAuthState (mkStorage None None) "admin" "wrong" in
  ok = false /\ as_isAuthenticated s' = false /\ as_isAuthenticated (mountAuth st') = false.
Proof. simpl. repeat split. Qed.

(** ** Identifiers over sequences of calls *)

Open Scope list_scope.

Section IdFacts.

Lemma map_id_insert (l : list Registrant) (k : nat) (old u : Registrant) :
  l !! k = Some old -> id u = id old -> map id (<[k := u]> l) = map id l.
Proof.
  revert k. induction l as [|r l IH]; intros [|k] L E; simpl in *; try discriminate.
  - injection L as ->. rewrite E. done.
  - f_equal. apply IH; done.
Qed.

Lemma map_id_filter_sublist (f : Registrant -> bool) (l : list Registrant) :
  map id (List.filter f l) `sublist_of` map id l.
Proof.
  induction l as [|r l IH]; simpl; [done|].
  destruct (f r); simpl; [apply sublist_skip | apply sublist_cons]; exact IH.
Qed.

Lemma step_ids (st : Storage) (op : StoreOp) :
  option_list (snd (step st op)) = created_of op /\
  map id (collection (fst (step st op))) `sublist_of` map id (collection st) ++ created_of op.
Proof.
  destruct op as [|i|env data|env i data|i]; unfold step, created_of.
  - rewrite app_nil_r, getAll_eq. simpl. split; [done|]. rewrite collection_init. done.
  - rewrite app_nil_r. unfold getRegistrantById. rewrite getAll_eq. simpl.
    split; [done|]. rewrite collection_init. done.
  - rewrite add_eq. simpl. split; [done|]. rewrite collection_set, map_app. done.
  - rewrite app_nil_r. split; [done|].
    destruct (findIndex i (collection st)) as [k|] eqn:F.
    + destruct (findIndex_Some _ _ _ F) as (old & L & _ & _).
      rewrite (update_found env st i data k old F L). simpl.
      rewrite collection_set, (map_id_insert _ k old); [done | exact L | reflexivity].
    + rewrite (update_missing env st i data F). simpl. rewrite collection_init. done.
  - rewrite app_nil_r. cbn [fst snd]. split; [done|]. rewrite delete_collection. apply map_id_filter_sublist.
Qed.

Lemma run_ids (st : Storage) (ops : list StoreOp) :
  snd (run st ops) = generated_uuids ops /\
  (NoDup (map id (collection st) ++ generated_uuids ops) ->
   NoDup (map id (collection (fst (run st ops))))).
Proof.
  revert st. induction ops as [|op ops IH]; intros st; simpl.
  - split; [done|]. rewrite app_nil_r. done.
  - destruct (step st op) as [st1 o] eqn:S.
    destruct (step_ids st op) as [Ho Hsub]. rewrite S in Ho, Hsub. simpl in Ho, Hsub.
    destruct (IH st1) as [IHs IHn].
    destruct (run st1 ops) as [st2 ids] eqn:R. simpl in *.
    split; [rewrite Ho, IHs; done|].
    intros Hnd. apply IHn. eapply sublist_NoDup; [exact Hnd|].
    rewrite app_assoc. apply sublist_app; [exact Hsub | done].
Qed.

Lemma generated_uuids_firstn (ops : list StoreOp) (n : nat) :
  generated_uuids ops = generated_uuids (firstn n ops) ++ generated_uuids (skipn n ops).
Proof.
  unfold generated_uuids. rewrite <- flat_map_app, List.firstn_skipn. done.
Qed.

End IdFacts.

(** Counterexample to C9 as stated: uniqueness rests on [crypto.randomUUID()]
    alone.  If it returns the same value twice, two created records share the
    id and the stored collection holds a duplicate id. *)
Lemma repeated_uuid_duplicates_ids :
  let env := mkEnv "u" 1 "t1" in
  let data := mkFormData "Ann" "a@x" "1" "r" female "1990" None in
  let '(st, ids) := run (mkStorage None None) [OpCreate env data; OpCreate env data] in
  ids = ["u"; "u"] /\ ~ NoDup ids /\ ~ NoDup (map id (collection st)).
Proof.
  simpl. split; [done|].
  split; rewrite NoDup_cons; intros [H _]; apply H; left.
Qed.

(** C9 (as amended): the ids returned by [addRegistrant] are exactly the values
    [crypto.randomUUID()] returned, in order; when those values are distinct
    from each other and from the ids already stored, the returned ids are
    pairwise distinct and, after every prefix of the calls, the ids in the
    stored collection are unique. *)
Theorem created_ids_unique (st0 : Storage) (ops : list StoreOp) :
  snd (run st0 ops) = generated_uuids ops /\
  (NoDup (map id (collection st0) ++ generated_uuids ops) ->
     NoDup (snd (run st0 ops)) /\
     forall n, NoDup (map id (collection (fst (run st0 (firstn n ops)))))).
Proof.
  destruct (run_ids st0 ops) as [Hs _]. split; [exact Hs|].
  intros Hnd. split.
  - rewrite Hs. apply NoDup_app in Hnd. tauto.
  - intros n. apply (proj2 (run_ids st0 (firstn n ops))).
    rewrite (generated_uuids_firstn ops n), app_assoc in Hnd.
    apply NoDup_app in Hnd. tauto.
Qed.

Lemma created_ids_unique_witness :
  let ops := [OpCreate (mkEnv "u1" 1 "t1") (mkFormData "Ann" "a@x" "1" "r" female "1990" None);
              OpDelete "u1";
              OpCreate (mkEnv "u2" 2 "t2") (mkFormData "Bob" "b@x" "2" "s" male "1980" None)] in
  NoDup (map id (collection (mkStorage None None)) ++ generated_uuids ops) /\
  NoDup (snd (run (mkStorage None None) ops)).
Proof.
  intros ops.
  assert (H : NoDup (map id (collection (mkStorage None None)) ++ generated_uuids ops)).
  { simpl. apply NoDup_cons. split; [|apply NoDup_singleton].
    intros Hin. apply list_elem_of_singleton in Hin. discriminate. }
  split; [exact H|]. exact (proj1 (proj2 (created_ids_unique (mkStorage None None) ops) H)).
Defined.

(** * Further operations: callers of the store and the rest of the cited files *)

(** ** Dashboard delete with confirmation ([AdminDashboard.tsx]) *)

(** The part of the dashboard state the delete flow touches. *)
Record Dashboard := mkDashboard {
  d_registrants : list Registrant;      (** [registrants] *)
  d_deleteConfirm : option string       (** [deleteConfirm]; [None] is [null] *)
}.

(** [loadRegistrants]: [setRegistrants(getAllRegistrants())]. *)
Definition loadRegistrants (st : Storage) (d : Dashboard) : Storage * Dashboard :=
  let '(st', data) := getAllRegistrants st in
  (st', mkDashboard data (d_deleteConfirm d)).

(** [handleDelete]: the first click on a row arms the confirmation, a second
    click on the same row deletes, reloads and disarms. *)
Definition handleDelete (st : Storage) (d : Dashboard) (i : string) : Storage * Dashboard :=
  match d_deleteConfirm d with
  | Some c =>
      if String.eqb c i then
        let st1 := fst (deleteRegistrant st i) in
        let '(st2, d2) := loadRegistrants st1 d in
        (st2, mkDashboard (d_registrants d2) None)
      else (st, mkDashboard (d_registrants d) (Some i))
  | None => (st, mkDashboard (d_registrants d) (Some i))
  end.

Definition cancelDelete (d : Dashboard) : Dashboard := mkDashboard (d_registrants d) None.

(** The Previous and Next buttons:
    [paginate(Math.max(1, currentPage - 1))] and
    [paginate(Math.min(totalPages, currentPage + 1))]. *)
Definition prevPage (currentPage : Z) : Z := Z.max 1 (currentPage - 1).
Definition nextPage (tp currentPage : Z) : Z := Z.min tp (currentPage + 1).

(** "Showing [indexOfFirstItem + 1] to [Math.min(indexOfLastItem, length)]". *)
Definition showingFrom (k currentPage : Z) : Z := currentPage * k - k + 1.
Definition showingTo {A} (k currentPage : Z) (filtered : list A) : Z :=
  Z.min (currentPage * k) (Z.of_nat (length filtered)).

(** ** File selection ([FileUpload.tsx], [handleFileChange]) *)

Record FileInfo := mkFileInfo { file_type : string; file_size : Z }.

Inductive UploadOutcome :=
| NoFile                      (** no file chosen: nothing happens *)
| Rejected (message : string) (** [setError(message)], the parent is not called *)
| Selected (f : FileInfo).    (** [onFileSelect(file)] *)

Definition MAX_FILE_SIZE : Z := 5 * 1024 * 1024.

(** [file.type.match('image.*')] builds the regular expression [/image.*/],
    which matches exactly when ["image"] occurs somewhere in the type. *)
Definition handleFileChange (file : option FileInfo) : UploadOutcome :=
  match file with
  | None => NoFile
  | Some f =>
      if negb (includes (file_type f) "image") then
        Rejected "Please select an image file (JPEG, PNG, etc.)"
      else if Z.ltb MAX_FILE_SIZE (file_size f) then
        Rejected "File is too large. Maximum size is 5MB."
      else Selected f
  end.

(** ** The registration and edit forms ([RegistrationForm], [EditRegistrant]) *)

(** The validated form values (the zod schema's fields). *)
Record FormValues := mkFormValues {
  fv_fullName : string;
  fv_email : string;
  fv_phone : string;
  fv_address : string;
  fv_gender : Gender;
  fv_dateOfBirth : string
}.

(** [{ ...data, photoData }] *)
Definition toFormData (v : FormValues) (photo : string) : RegistrantFormData :=
  mkFormData (fv_fullName v) (fv_email v) (fv_phone v) (fv_address v) (fv_gender v)
             (fv_dateOfBirth v) (Some photo).

(** [addRegistrant] with the failure of its [localStorage.setItem] call, which
    throws (a [QuotaExceededError]) when the serialised array does not fit in
    the origin's quota.  [writeOk] is the outcome of that call; [None] is the
    rejected promise.  The [[]] that [initializeStorage] may write before it is
    modelled as succeeding. *)
Definition addRegistrantChecked (env : Env) (st : Storage) (data : RegistrantFormData)
    (writeOk : bool) : Storage * option Registrant :=
  let '(st', regs) := getAllRegistrants st in
  let r := newRegistrant env data in
  if writeOk then (set_registrants st' (regs ++ [r]), Some r) else (st', None).

(** [RegistrationForm.onSubmit]: refuses an empty [photoData] state (alert);
    otherwise awaits [addRegistrant] inside [try]: on success the record is
    created, on a throw the [catch] branch alerts and nothing is created. *)
Definition submitRegistration (env : Env) (st : Storage) (v : FormValues) (photoData : string)
    (writeOk : bool) : Storage * option Registrant :=
  if String.eqb photoData "" then (st, None)
  else addRegistrantChecked env st (toFormData v photoData) writeOk.

(** [EditRegistrant]'s load effect: the [setValue] calls and the [photoData]
    state, which starts as [''] and takes the record's photo when it is truthy. *)
Definition editLoad (st : Storage) (i : string) : Storage * option (FormValues * string) :=
  let '(st', o) := getRegistrantById st i in
  (st', option_map (fun r =>
          (mkFormValues (fullName r) (email r) (phone r) (address r) (gender r) (dateOfBirth r),
           if truthy (photoData r) then default "" (photoData r) else "")) o).

(** [EditRegistrant.onSubmit]. *)
Definition editSubmit (env : Env) (st : Storage) (i : string) (v : FormValues) (photoData : string)
  : Storage * option Registrant :=
  updateRegistrant env st i (toFormData v photoData).

(** Calls on the session provider after it has mounted. *)
Inductive AuthOp := AuthLogin (user password : string) | AuthLogout.

Fixpoint run_auth (s : AuthState) (st : Storage) (ops : list AuthOp) : AuthState * Storage :=
  match ops with
  | [] => (s, st)
  | AuthLogin u p :: ops' => let '(s1, st1, _) := login s st u p in run_auth s1 st1 ops'
  | AuthLogout :: ops' => let '(s1, st1) := logout st in run_auth s1 st1 ops'
  end.

(** A record with its [photoPath] replaced. *)
Definition with_photoPath (r : Registrant) (p : string) : Registrant :=
  mkRegistrant (id r) (fullName r) (email r) (phone r) (address r) (gender r)
               (dateOfBirth r) p (photoData r) (createdAt r).

(** ** Properties of the store *)

Section MoreStoreFacts.

Lemma find_by_id_insert_first (i : string) (l : list Registrant) (k : nat) (u : Registrant) :
  (k < length l)%nat ->
  (forall j r, (j < k)%nat -> l !! j = Some r -> id r <> i) ->
  id u = i ->
  find_by_id i (<[k := u]> l) = Some u.
Proof.
  revert k. induction l as [|r l IH]; intros [|k] Hk Before Hu; simpl in *; try lia.
  - rewrite Hu, String.eqb_refl. done.
  - destruct (String.eqb_spec (id r) i) as [E|E].
    + exfalso. exact (Before 0%nat r ltac:(lia) eq_refl E).
    + apply IH; [lia | | done]. intros j r' Hj Lj. apply (Before (S j)); [lia | done].
Qed.

Lemma initializeStorage_idem (st : Storage) :
  initializeStorage (initializeStorage st) = initializeStorage st.
Proof. destruct st as [[l|] a]; reflexivity. Qed.

Lemma map_insert_same {B} (f : Registrant -> B) (l : list Registrant) (k : nat)
      (old u : Registrant) :
  l !! k = Some old -> f u = f old -> map f (<[k := u]> l) = map f l.
Proof.
  revert k. induction l as [|r l IH]; intros [|k] L E; simpl in *; try discriminate.
  - injection L as ->. rewrite E. done.
  - f_equal. apply IH; done.
Qed.

Lemma delete_absent (st : Storage) (i : string) :
  (forall r, In r (collection st) -> id r <> i) ->
  deleteRegistrant st i = (initializeStorage st, false).
Proof.
  intros H. rewrite delete_eq. simpl.
  assert (E : List.filter (fun r => negb (String.eqb (id r) i)) (collection st) = collection st).
  { clear -H. induction (collection st) as [|r l IH]; simpl; [done|].
    destruct (String.eqb_spec (id r) i) as [E|E].
    - exfalso. exact (H r (or_introl eq_refl) E).
    - simpl. f_equal. apply IH. intros r' Hr'. apply H. right. exact Hr'. }
  rewrite E, Nat.eqb_refl. done.
Qed.

End MoreStoreFacts.

(** Reading never changes the collection: [getAllRegistrants] and
    [getRegistrantById] return the stored list (an absent key reads as [[]]),
    the first read creates an absent key as [[]], and a second read leaves
    the storage exactly as the first left it. *)
Theorem reads_keep_collection (st : Storage) (i : string) :
  snd (getAllRegistrants st) = collection st /\
  collection (fst (getAllRegistrants st)) = collection st /\
  st_registrants (fst (getAllRegistrants st)) = Some (collection st) /\
  getAllRegistrants (fst (getAllRegistrants st)) = getAllRegistrants st /\
  getRegistrantById st i = (fst (getAllRegistrants st), find_by_id i (collection st)).
Proof.
  rewrite getAll_eq. simpl. rewrite collection_init. split; [done|]. split; [done|].
  split; [destruct st as [[l|] a]; done|].
  split; [rewrite getAll_eq, initializeStorage_idem, collection_init; done|].
  unfold getRegistrantById. rewrite getAll_eq. done.
Qed.

(** [addRegistrant] appends: the stored collection becomes the old one with the
    returned record at the end, so the listing stays oldest-first. *)
Theorem create_appends_last (env : Env) (st : Storage) (data : RegistrantFormData) :
  collection (fst (addRegistrant env st data)) = collection st ++ [snd (addRegistrant env st data)] /\
  length (collection (fst (addRegistrant env st data))) = S (length (collection st)).
Proof.
  rewrite add_eq. simpl. rewrite collection_set. split; [done|]. rewrite length_app. simpl. lia.
Qed.

(** After a successful [updateRegistrant], [getRegistrantById] of the same id
    returns the updated record. *)
Theorem update_then_get (env : Env) (st : Storage) (i : string) (data : RegistrantFormData) :
  find_by_id i (collection st) <> None ->
  snd (updateRegistrant env st i data) <> None /\
  snd (getRegistrantById (fst (updateRegistrant env st i data)) i)
    = snd (updateRegistrant env st i data).
Proof.
  intros Hf. destruct (find_by_id i (collection st)) as [old|] eqn:E; [|done].
  destruct (find_by_id_findIndex _ _ _ E) as (k & F & L).
  destruct (findIndex_Some _ _ _ F) as (old' & L' & Hid & Before).
  rewrite L in L'. injection L' as <-.
  rewrite (update_found env st i data k old F L). cbn [fst snd].
  split; [discriminate|].
  unfold getRegistrantById. rewrite getAll_eq. cbn [fst snd]. rewrite collection_set.
  apply find_by_id_insert_first; [eapply lookup_lt_Some; exact L | exact Before | exact Hid].
Qed.

Lemma update_then_get_witness :
  let st := mkStorage (Some [mkRegistrant "u1" "Ann" "a@x" "1" "r" female "1990" "" None "t0"]) None in
  let data := mkFormData "Bea" "b@x" "2" "s" other "1991" None in
  find_by_id "u1" (collection st) <> None /\
  snd (getRegistrantById (fst (updateRegistrant (mkEnv "u9" 9 "t9") st "u1" data)) "u1")
    = snd (updateRegistrant (mkEnv "u9" 9 "t9") st "u1" data).
Proof.
  intros st data. assert (H : find_by_id "u1" (collection st) <> None) by discriminate.
  split; [exact H|]. exact (proj2 (update_then_get (mkEnv "u9" 9 "t9") st "u1" data H)).
Defined.

(** Updating with a new (non-empty) photo replaces the photo and the path
    together: [photoData] is the new photo and [photoPath] the fresh, non-empty
    label [photo_<Date.now()>.jpg]; [id] and [createdAt] are kept. *)
Theorem update_with_photo_replaces_both (env : Env) (st : Storage) (i : string)
    (data : RegistrantFormData) (old : Registrant) :
  find_by_id i (collection st) = Some old ->
  truthy (fd_photoData data) = true ->
  exists u, snd (updateRegistrant env st i data) = Some u /\
    photoData u = fd_photoData data /\ photoPath u = photo_label (env_now env) /\
    photoPath u <> "" /\ id u = id old /\ createdAt u = createdAt old.
Proof.
  intros Hf Hp. destruct (find_by_id_findIndex _ _ _ Hf) as (k & F & L).
  rewrite (update_found env st i data k old F L). exists (updatedRegistrant env old data).
  unfold updatedRegistrant, js_or. simpl. rewrite Hp.
  split; [done|]. split; [done|]. split; [done|]. split; [apply photo_label_nonempty|done].
Qed.

Lemma update_with_photo_replaces_both_witness :
  let old := mkRegistrant "u1" "Ann" "a@x" "1" "r" female "1990" "photo_1.jpg" (Some "P") "t0" in
  let st := mkStorage (Some [old]) None in
  let data := mkFormData "Ann" "a@x" "1" "r" female "1990" (Some "Q") in
  find_by_id "u1" (collection st) = Some old /\ truthy (fd_photoData data) = true /\
  exists u, snd (updateRegistrant (mkEnv "u9" 42 "t9") st "u1" data) = Some u /\
    photoData u = fd_photoData data /\ photoPath u = photo_label 42 /\
    photoPath u <> "" /\ id u = id old /\ createdAt u = createdAt old.
Proof.
  intros old st data. split; [reflexivity|]. split; [reflexivity|].
  exact (update_with_photo_replaces_both (mkEnv "u9" 42 "t9") st "u1" data old eq_refl eq_refl).
Defined.

(** [updateRegistrant] never changes which ids the collection holds, nor any
    record's [id] or [createdAt]: position by position they are the same. *)
Theorem update_keeps_ids_and_dates (env : Env) (st : Storage) (i : string)
    (data : RegistrantFormData) :
  map (fun r => (id r, createdAt r)) (collection (fst (updateRegistrant env st i data)))
    = map (fun r => (id r, createdAt r)) (collection st).
Proof.
  destruct (findIndex i (collection st)) as [k|] eqn:F.
  - destruct (findIndex_Some _ _ _ F) as (old & L & _ & _).
    rewrite (update_found env st i data k old F L). simpl.
    apply (map_insert_same _ _ k old); [exact L | reflexivity].
  - rewrite (update_missing env st i data F). simpl. rewrite collection_init. done.
Qed.

(** After [deleteRegistrant st i], no record with id [i] can be found. *)
Theorem delete_then_get (st : Storage) (i : string) :
  snd (getRegistrantById (fst (deleteRegistrant st i)) i) = None.
Proof.
  unfold getRegistrantById. rewrite getAll_eq. cbn [fst snd].
  apply find_by_id_None. intros r. rewrite delete_collection. intros Hr.
  apply List.filter_In in Hr as [_ Hr]. destruct (String.eqb_spec (id r) i); [discriminate | done].
Qed.

(** Deleting the same id a second time reports [false] and leaves the storage
    exactly as the first deletion left it. *)
Theorem delete_twice (st : Storage) (i : string) :
  deleteRegistrant (fst (deleteRegistrant st i)) i = (fst (deleteRegistrant st i), false).
Proof.
  assert (Hk : st_registrants (fst (deleteRegistrant st i)) <> None).
  { rewrite delete_eq. simpl.
    destruct (Nat.eqb _ _); simpl; [destruct st as [[l|] a]|]; discriminate. }
  assert (Ha : forall r, In r (collection (fst (deleteRegistrant st i))) -> id r <> i).
  { intros r. rewrite delete_collection. intros Hr.
    apply List.filter_In in Hr as [_ Hr]. destruct (String.eqb_spec (id r) i); [discriminate | done]. }
  rewrite (delete_absent _ _ Ha).
  destruct (fst (deleteRegistrant st i)) as [[l|] a]; [done|]. by destruct Hk.
Qed.

(** ** Properties of the session, dashboard and forms *)

(** After the provider has mounted, any sequence of [login] and [logout]
    calls keeps the in-memory session equal to what a reload would restore
    from the ['admin'] key, and never touches the ['registrants'] key. *)
Theorem session_survives_reload (st : Storage) (ops : list AuthOp) :
  let '(s', st') := run_auth (mountAuth st) st ops in
  s' = mountAuth st' /\ st_registrants st' = st_registrants st.
Proof.
  assert (G : forall s st, s = mountAuth st ->
            let '(s', st') := run_auth s st ops in
            s' = mountAuth st' /\ st_registrants st' = st_registrants st).
  { induction ops as [|[u p|] ops IH]; intros s0 st0 Hs; simpl.
    - done.
    - unfold login. destruct (String.eqb u "admin" && String.eqb p "admin123").
      + pose proof (IH (mkAuthState (Some (mkAdmin u true)) true)
                       (mkStorage (st_registrants st0) (Some (mkAdmin u true))) eq_refl) as H.
        destruct (run_auth _ _ ops) as [s' st']. destruct H as [H1 H2]. split; [done|]. exact H2.
      + exact (IH s0 st0 Hs).
    - pose proof (IH initialAuthState (mkStorage (st_registrants st0) None) eq_refl) as H.
      destruct (run_auth _ _ ops) as [s' st']. destruct H as [H1 H2]. split; [done|]. exact H2. }
  exact (G (mountAuth st) st eq_refl).
Qed.

(** Deleting from the dashboard takes two clicks on the same row.  A first
    click (nothing armed for that id) only arms the confirmation and writes
    nothing; a second click on that row deletes every record with the id,
    reloads the table from storage and disarms.  Cancelling, or clicking
    another row, in between deletes nothing. *)
Theorem delete_needs_confirmation (st : Storage) (d : Dashboard) (i j : string) :
  d_deleteConfirm d <> Some i ->
  let '(st1, d1) := handleDelete st d i in
  st1 = st /\ d_deleteConfirm d1 = Some i /\
  (let '(st2, d2) := handleDelete st1 d1 i in
     collection st2 = List.filter (fun r => negb (String.eqb (id r) i)) (collection st) /\
     d_registrants d2 = collection st2 /\ d_deleteConfirm d2 = None) /\
  handleDelete st1 (cancelDelete d1) i = (st1, mkDashboard (d_registrants d1) (Some i)) /\
  (j <> i -> handleDelete st1 d1 j = (st1, mkDashboard (d_registrants d1) (Some j))).
Proof.
  intros Hd.
  assert (H1 : handleDelete st d i = (st, mkDashboard (d_registrants d) (Some i))).
  { unfold handleDelete. destruct (d_deleteConfirm d) as [c|]; [|done].
    destruct (String.eqb_spec c i) as [->|]; [done|done]. }
  rewrite H1. split; [done|]. split; [done|]. split; [|split].
  - unfold handleDelete. cbn [d_deleteConfirm]. rewrite String.eqb_refl.
    unfold loadRegistrants. rewrite getAll_eq. cbn [fst snd d_registrants d_deleteConfirm].
    rewrite collection_init, delete_collection. done.
  - done.
  - intros Hj. unfold handleDelete. simpl.
    destruct (String.eqb_spec i j) as [E|]; [congruence | done].
Qed.

Lemma delete_needs_confirmation_witness :
  let st := mkStorage (Some [mkRegistrant "u1" "Ann" "a@x" "1" "r" female "1990" "" None "t0"]) None in
  let d := mkDashboard (collection st) None in
  d_deleteConfirm d <> Some "u1" /\
  fst (handleDelete st d "u1") = st.
Proof.
  intros st d. assert (H : d_deleteConfirm d <> Some "u1") by discriminate.
  split; [exact H|].
  pose proof (delete_needs_confirmation st d "u1" "u2" H) as P.
  destruct (handleDelete st d "u1") as [st1 d1]. exact (proj1 P).
Defined.

(** On any page [p] with [1 <= p <= totalPages], the "Showing a to b of N"
    range counts exactly the items shown ([b - a + 1] of them, [a <= b]), and
    the Previous and Next buttons lead to a page in the same range. *)
Theorem showing_range_and_page_buttons {A} (k : Z) (filtered : list A) (p : Z) :
  (0 < k)%Z -> (1 <= p <= totalPages k filtered)%Z ->
  (showingTo k p filtered - showingFrom k p + 1
     = Z.of_nat (length (currentItems k p filtered)))%Z /\
  (showingFrom k p <= showingTo k p filtered)%Z /\
  (1 <= prevPage p <= totalPages k filtered)%Z /\
  (1 <= nextPage (totalPages k filtered) p <= totalPages k filtered)%Z.
Proof.
  intros Hk Hp.
  set (N := Z.of_nat (length filtered)). set (T := totalPages k filtered) in *.
  pose proof (math_ceil_div_bounds N k Hk) as B.
  assert (ET : T = math_ceil_div N k) by reflexivity. rewrite <- ET in B.
  assert (HN : (0 <= N)%Z) by lia.
  unfold showingTo, showingFrom, prevPage, nextPage, currentItems. fold N.
  rewrite js_slice_length; [|fold N; nia | nia]. fold N.
  assert ((p - 1) * k < N)%Z by nia.
  split; [|split; [|split]]; nia.
Qed.

Lemma showing_range_and_page_buttons_witness :
  (0 < itemsPerPage)%Z /\ (1 <= 2 <= totalPages itemsPerPage [1;2;3;4;5;6;7])%Z /\
  (showingTo itemsPerPage 2 [1;2;3;4;5;6;7] - showingFrom itemsPerPage 2 + 1
     = Z.of_nat (length (currentItems itemsPerPage 2 [1;2;3;4;5;6;7])))%Z.
Proof.
  assert (Hk : (0 < itemsPerPage)%Z) by reflexivity.
  assert (Hp : (1 <= 2 <= totalPages itemsPerPage [1;2;3;4;5;6;7])%Z)
    by (vm_compute; split; discriminate).
  split; [exact Hk|]. split; [exact Hp|].
  exact (proj1 (showing_range_and_page_buttons itemsPerPage [1;2;3;4;5;6;7] 2 Hk Hp)).
Defined.

(** [handleFileChange] passes a file to the parent exactly when its type
    contains ["image"] and its size is at most 5 MiB (5242880 bytes).  The
    type is checked first: a non-image file gets the type error whatever its
    size.  With no file nothing happens. *)
Theorem file_selection_checks (f : FileInfo) :
  handleFileChange None = NoFile /\
  (handleFileChange (Some f) = Selected f <->
     is_substring "image" (file_type f) /\ (file_size f <= 5242880)%Z) /\
  (~ is_substring "image" (file_type f) ->
     handleFileChange (Some f) = Rejected "Please select an image file (JPEG, PNG, etc.)") /\
  (is_substring "image" (file_type f) -> (5242880 < file_size f)%Z ->
     handleFileChange (Some f) = Rejected "File is too large. Maximum size is 5MB.").
Proof.
  split; [reflexivity|].
  unfold handleFileChange, MAX_FILE_SIZE.
  destruct (includes (file_type f) "image") eqn:I.
  - assert (HI : is_substring "image" (file_type f)) by (apply includes_spec; exact I).
    simpl. destruct (Z.ltb_spec (5 * 1024 * 1024) (file_size f)) as [L|L].
    + split; [split; [discriminate | intros [_ H]; lia]|].
      split; [intros N; exfalso; exact (N HI)|]. intros _ _; reflexivity.
    + split; [split; [intros _; split; [exact HI | lia] | reflexivity]|].
      split; [intros N; exfalso; exact (N HI)|]. intros _ H; lia.
  - assert (NI : ~ is_substring "image" (file_type f))
      by (rewrite <- includes_spec; congruence).
    simpl. split; [split; [discriminate | intros [H _]; exfalso; exact (NI H)]|].
    split; [reflexivity|]. intros H; exfalso; exact (NI H).
Qed.

Lemma file_selection_checks_witness :
  let f := mkFileInfo "image/png" 5242881 in
  is_substring "image" (file_type f) /\ (5242880 < file_size f)%Z /\
  handleFileChange (Some f) = Rejected "File is too large. Maximum size is 5MB.".
Proof.
  intros f. assert (H1 : is_substring "image" (file_type f)) by (exists "", "/png"; reflexivity).
  assert (H2 : (5242880 < file_size f)%Z) by (simpl; lia).
  split; [exact H1|]. split; [exact H2|].
  exact (proj2 (proj2 (proj2 (file_selection_checks f))) H1 H2).
Defined.

(** Registration through the form always stores a photo: with an empty
    [photoData] state nothing is written and nothing is created; when the write
    of the array throws, nothing is created and the collection is unchanged;
    otherwise the created record, appended to the collection, carries that
    photo, the submitted values and the non-empty label [photo_<Date.now()>.jpg]. *)
Theorem registration_requires_photo (env : Env) (st : Storage) (v : FormValues)
    (ph : string) (writeOk : bool) :
  (ph = "" -> submitRegistration env st v ph writeOk = (st, None)) /\
  (ph <> "" -> writeOk = false ->
     snd (submitRegistration env st v ph writeOk) = None /\
     collection (fst (submitRegistration env st v ph writeOk)) = collection st) /\
  (ph <> "" -> writeOk = true ->
     exists r, snd (submitRegistration env st v ph writeOk) = Some r /\
       collection (fst (submitRegistration env st v ph writeOk)) = collection st ++ [r] /\
       photoData r = Some ph /\ photoPath r = photo_label (env_now env) /\
       photoPath r <> "" /\ id r = env_uuid env /\
       fullName r = fv_fullName v /\ email r = fv_email v /\ phone r = fv_phone v /\
       address r = fv_address v /\ gender r = fv_gender v /\
       dateOfBirth r = fv_dateOfBirth v).
Proof.
  unfold submitRegistration, addRegistrantChecked. rewrite getAll_eq. split; [|split].
  - intros ->. reflexivity.
  - intros Hph ->. destruct (String.eqb_spec ph "") as [|_]; [done|].
    cbn [fst snd]. split; [reflexivity | apply collection_init].
  - intros Hph ->. destruct (String.eqb_spec ph "") as [|_]; [done|].
    exists (newRegistrant env (toFormData v ph)). cbn [fst snd].
    rewrite collection_set. split; [done|]. split; [done|].
    unfold newRegistrant, toFormData, truthy. simpl.
    destruct (String.eqb_spec ph "") as [|_]; [done|]. simpl.
    split; [done|]. split; [done|]. split; [apply photo_label_nonempty|].
    repeat split.
Qed.

(** A registration with a photo into an empty store: a failed write creates
    nothing and leaves the collection empty; a successful one stores one record
    labelled [photo_7.jpg]. *)
Lemma registration_requires_photo_witness :
  let v := mkFormValues "Ann Lee" "a@x.io" "0123456789" "Main St" female "1990-01-01" in
  let env := mkEnv "u1" 7 "t7" in
  let st := mkStorage None None in
  "data:image/png;base64,AA" <> "" /\
  (snd (submitRegistration env st v "data:image/png;base64,AA" false) = None /\
   collection (fst (submitRegistration env st v "data:image/png;base64,AA" false)) = []) /\
  exists r, snd (submitRegistration env st v "data:image/png;base64,AA" true) = Some r /\
    collection (fst (submitRegistration env st v "data:image/png;base64,AA" true)) = [r] /\
    photoPath r = photo_label 7.
Proof.
  intros v env st. assert (H : "data:image/png;base64,AA" <> "") by discriminate.
  split; [exact H|]. split.
  - exact (proj1 (proj2 (registration_requires_photo env st v "data:image/png;base64,AA" false))
             H eq_refl).
  - destruct (proj2 (proj2 (registration_requires_photo env st v "data:image/png;base64,AA" true))
                H eq_refl)
      as (r & E1 & E2 & _ & E3 & _).
    exists r. split; [exact E1|]. split; [exact E2 | exact E3].
Defined.

(** Opening a record in the edit page and saving without changing anything
    returns the same record, except that a record with a photo gets a fresh
    [photoPath]: the page always sends the loaded photo back, so the store
    sees a truthy [photoData] and relabels it.  A record without a photo comes
    back unchanged. *)
Theorem edit_resubmit_unchanged (env : Env) (st : Storage) (i : string) (r : Registrant) :
  find_by_id i (collection st) = Some r ->
  exists v ph,
    snd (editLoad st i) = Some (v, ph) /\
    snd (editSubmit env (fst (editLoad st i)) i v ph)
      = Some (with_photoPath r (if truthy (photoData r) then photo_label (env_now env)
                                else photoPath r)).
Proof.
  intros Hf. destruct (find_by_id_findIndex _ _ _ Hf) as (k & F & L).
  unfold editLoad, getRegistrantById. rewrite getAll_eq. cbn [fst snd]. rewrite Hf.
  eexists _, _. split; [reflexivity|]. cbn [fst].
  unfold editSubmit.
  rewrite <- (collection_init st) in F, L.
  rewrite (update_found env (initializeStorage st) i _ k r F L). cbn [snd]. f_equal.
  unfold updatedRegistrant, with_photoPath, toFormData, js_or. cbn.
  destruct r as [i0 n e p a g b pp [s|] c]; cbn.
  - destruct (String.eqb_spec s "") as [->|Hs]; cbn; [reflexivity|].
    destruct (String.eqb_spec s "") as [|_]; [done|]. reflexivity.
  - reflexivity.
Qed.

Lemma edit_resubmit_unchanged_witness :
  let r := mkRegistrant "u1" "Ann" "a@x" "1" "r" female "1990" "photo_1.jpg" (Some "P") "t0" in
  let st := mkStorage (Some [r]) None in
  find_by_id "u1" (collection st) = Some r /\
  exists v ph,
    snd (editLoad st "u1") = Some (v, ph) /\
    snd (editSubmit (mkEnv "u9" 42 "t9") (fst (editLoad st "u1")) "u1" v ph)
      = Some (with_photoPath r "photo_42.jpg").
Proof.
  intros r st. assert (H : find_by_id "u1" (collection st) = Some r) by reflexivity.
  split; [exact H|]. exact (edit_resubmit_unchanged (mkEnv "u9" 42 "t9") st "u1" r H).
Defined.
